(** * FreeDAIY API (src/main.py): a shallow embedding of the intake,
    diagnostics and catalog endpoints.

    Python strings are sequences of code points; [pystr] models them as
    lists of code points, so that [length] is Python's [len] and [firstn n]
    is the slice [s[:n]].  Exceptions, the in-place mutation of the
    diagnostics dictionary and the calls made to [create_document] are
    threaded through a small state-and-exception monad. *)

From Stdlib Require Import String Ascii List NArith ZArith Bool Lia.
Import ListNotations.
Open Scope list_scope.

(* ------------------------------------------------------------------ *)
(** ** Python strings *)

Definition pystr := list N.

(** An ASCII literal as a Python string. *)
Fixpoint u (s : string) : pystr :=
  match s with
  | EmptyString => []
  | String c s' => N_of_ascii c :: u s'
  end.

(** Non-ASCII code points occurring in the source. *)
Definition CHECK_MARK : pystr := [9989%N].          (* U+2705 *)
Definition CROSS_MARK : pystr := [10060%N].         (* U+274C *)
Definition WARNING_SIGN : pystr := [9888%N; 65039%N]. (* U+26A0 U+FE0F *)
Definition EM_DASH : pystr := [8212%N].             (* U+2014 *)
Definition RIGHT_ARROW : pystr := [8594%N].         (* U+2192 *)

Fixpoint pystr_eqb (a b : pystr) : bool :=
  match a, b with
  | [], [] => true
  | x :: a', y :: b' => N.eqb x y && pystr_eqb a' b'
  | _, _ => false
  end.

Fixpoint is_prefix (p s : pystr) : bool :=
  match p, s with
  | [], _ => true
  | x :: p', y :: s' => N.eqb x y && is_prefix p' s'
  | _ :: _, [] => false
  end.

(** Truthiness of a Python string: only the empty string is falsy. *)
Definition str_truthy (s : pystr) : bool :=
  match s with [] => false | _ => true end.

(** Decimal rendering of a status code, used by [str] of an HTTPException. *)
Fixpoint digits_aux (fuel : nat) (n : N) (acc : pystr) : pystr :=
  match fuel with
  | O => acc
  | S fuel' =>
      let acc' := (48 + n mod 10)%N :: acc in
      if (n <? 10)%N then acc' else digits_aux fuel' (n / 10)%N acc'
  end.

Definition str_of_Z (z : Z) : pystr :=
  if (z <? 0)%Z then u "-" ++ digits_aux 64 (Z.to_N (- z)) []
  else digits_aux 64 (Z.to_N z) [].

(* ------------------------------------------------------------------ *)
(** ** JSON values and Python dictionaries *)

Local Set Warnings "-register-all".

Inductive json : Type :=
| JNull
| JStr (s : pystr)
| JArr (l : list json)
| JObj (kvs : list (pystr * json)).

(** A dict with its items in insertion order.  A later item overrides an
    earlier one with the same key, as when [json.loads] builds a dict. *)
Definition pydict := list (pystr * json).

Definition dict_get (k : pystr) (d : pydict) : option json :=
  fold_left (fun acc kv => if pystr_eqb (fst kv) k then Some (snd kv) else acc) d None.

Definition opt_str (o : option pystr) : json :=
  match o with None => JNull | Some s => JStr s end.

(* ------------------------------------------------------------------ *)
(** ** Exceptions and the state-and-exception monad *)

Inductive exn : Type :=
| PyException (msg : pystr)
| HTTPException (status_code : Z) (detail : pystr).

(** [str(e)]: the message; Starlette renders an HTTPException as
    ["<status>: <detail>"]. *)
Definition exn_str (e : exn) : pystr :=
  match e with
  | PyException m => m
  | HTTPException c d => str_of_Z c ++ u ": " ++ d
  end.

Inductive outcome (A : Type) : Type :=
| Ok (a : A)
| Raise (e : exn).
Arguments Ok {A} a.
Arguments Raise {A} e.

(** A computation over a mutable state [S] that may raise; side effects on
    the state survive an exception, as in Python. *)
Definition ST (S A : Type) := S -> outcome A * S.

Definition ret {S A} (a : A) : ST S A := fun s => (Ok a, s).

Definition bind {S A B} (m : ST S A) (k : A -> ST S B) : ST S B :=
  fun s =>
    match m s with
    | (Ok a, s') => k a s'
    | (Raise e, s') => (Raise e, s')
    end.

Definition raise {S A} (e : exn) : ST S A := fun s => (Raise e, s).

(** [try: m except Exception as e: h(e)]; every modelled exception is an
    [Exception]. *)
Definition try_except {S A} (m : ST S A) (h : exn -> ST S A) : ST S A :=
  fun s =>
    match m s with
    | (Raise e, s') => h e s'
    | r => r
    end.

Definition get {S} : ST S S := fun s => (Ok s, s).
Definition modify {S} (f : S -> S) : ST S unit := fun s => (Ok tt, f s).

Notation "x <- m ;; k" := (bind m (fun x => k))
  (at level 61, m at next level, right associativity).
Notation "m ;;; k" := (bind m (fun _ => k))
  (at level 61, right associativity).

(* ------------------------------------------------------------------ *)
(** ** The environment: the [database] module and the process variables *)

(** The database helper module (external, "provided by environment").
    [db.list_collection_names()] either returns the names or raises. *)
Record db_handle : Type := { list_collection_names : outcome (list pystr) }.

(** What [from database import db] does: the import raises, or it binds
    [db], which may be [None]. *)
Inductive database_module : Type :=
| ImportFails (e : exn)
| Imported (db : option db_handle).

Definition import_db (m : database_module) {S} : ST S (option db_handle) :=
  match m with
  | ImportFails e => raise e
  | Imported db => ret db
  end.

(** [os.getenv]. *)
Definition environ := pystr -> option pystr.

(** [if os.getenv(k)]: [None] and the empty string are falsy. *)
Definition getenv_truthy (env : environ) (k : pystr) : bool :=
  match env k with None => false | Some v => str_truthy v end.

(* ------------------------------------------------------------------ *)
(** ** GET /test (test_database, lines 35-63) *)

(** The [response] dict of [test_database]; [database_url] and
    [database_name] hold [None] or a string. *)
Record report : Type := {
  backend : pystr;
  database : pystr;
  database_url : option pystr;
  database_name : option pystr;
  connection_status : pystr;
  collections : list pystr
}.

Definition initial_report : report := {|
  backend := CHECK_MARK ++ u " Running";
  database := CROSS_MARK ++ u " Not Available";
  database_url := None;
  database_name := None;
  connection_status := u "Not Connected";
  collections := []
|}.

(** [response[...] = v], one per key. *)
Definition set_database (v : pystr) (r : report) : report :=
  {| backend := backend r; database := v; database_url := database_url r;
     database_name := database_name r; connection_status := connection_status r;
     collections := collections r |}.
Definition set_database_url (v : pystr) (r : report) : report :=
  {| backend := backend r; database := database r; database_url := Some v;
     database_name := database_name r; connection_status := connection_status r;
     collections := collections r |}.
Definition set_database_name (v : pystr) (r : report) : report :=
  {| backend := backend r; database := database r; database_url := database_url r;
     database_name := Some v; connection_status := connection_status r;
     collections := collections r |}.
Definition set_connection_status (v : pystr) (r : report) : report :=
  {| backend := backend r; database := database r; database_url := database_url r;
     database_name := database_name r; connection_status := v;
     collections := collections r |}.
Definition set_collections (v : list pystr) (r : report) : report :=
  {| backend := backend r; database := database r; database_url := database_url r;
     database_name := database_name r; connection_status := connection_status r;
     collections := v |}.

Definition SET_FLAG : pystr := CHECK_MARK ++ u " Set".
Definition NOT_SET_FLAG : pystr := CROSS_MARK ++ u " Not Set".
Definition CONNECTED_BUT_ERROR : pystr := WARNING_SIGN ++ u " Connected but Error: ".
Definition IMPORT_ERROR : pystr := CROSS_MARK ++ u " Error: ".

(** The body of [test_database], run on the mutable [response] dict. *)
Definition test_database_body (m : database_module) (env : environ) : ST report report :=
  try_except
    (real_db <- import_db m ;;
     match real_db with
     | Some db =>
         modify (set_database (CHECK_MARK ++ u " Available")) ;;;
         try_except
           (names <- (fun s => (list_collection_names db, s)) ;;
            modify (set_collections (firstn 10 names)) ;;;
            modify (set_database (CHECK_MARK ++ u " Connected & Working")) ;;;
            modify (set_connection_status (u "Connected")))
           (fun e => modify (set_database (CONNECTED_BUT_ERROR ++ firstn 60 (exn_str e))))
     | None =>
         modify (set_database (WARNING_SIGN ++ u " Available but not initialized"))
     end)
    (fun e => modify (set_database (IMPORT_ERROR ++ firstn 60 (exn_str e)))) ;;;
  modify (set_database_url
            (if getenv_truthy env (u "DATABASE_URL") then SET_FLAG else NOT_SET_FLAG)) ;;;
  modify (set_database_name
            (if getenv_truthy env (u "DATABASE_NAME") then SET_FLAG else NOT_SET_FLAG)) ;;;
  get.

(** The endpoint: a fresh [response] dict, then the body; the result is
    [Raise] when an exception escapes the handler. *)
Definition test_database (m : database_module) (env : environ) : outcome report :=
  fst (test_database_body m env initial_report).

Definition report_json (r : report) : json :=
  JObj [(u "backend", JStr (backend r));
        (u "database", JStr (database r));
        (u "database_url", opt_str (database_url r));
        (u "database_name", opt_str (database_name r));
        (u "connection_status", JStr (connection_status r));
        (u "collections", JArr (map JStr (collections r)))].

(* ------------------------------------------------------------------ *)
(** ** The catalog (list_posts, list_products, list_resources) *)

Record Post : Type := {
  post_id : pystr; post_title : pystr; post_category : pystr;
  post_preview : pystr; post_reading_time : pystr }.

Record Product : Type := {
  product_id : pystr; product_title : pystr; product_description : pystr;
  product_tag : pystr; product_level : pystr }.

Record Resource : Type := {
  resource_id : pystr; resource_title : pystr; resource_kind : pystr;
  resource_blurb : pystr; resource_tags : list pystr }.

Definition list_posts : list Post := [
  {| post_id := u "post-ai-productivity";
     post_title := u "Designing calm, hands-free AI flows";
     post_category := u "AI Productivity";
     post_preview := u "Principles to build voice-first workflows that reduce clicks and context switching.";
     post_reading_time := u "6 min" |};
  {| post_id := u "post-n8n-make";
     post_title := u "Nailing robust automations with n8n + Make.com";
     post_category := u "Automations";
     post_preview := u "Patterns for reliability, retries, and observability in production workflows.";
     post_reading_time := u "7 min" |};
  {| post_id := u "post-self-hosted-ai";
     post_title := u "Private AI: self-hosting strategies";
     post_category := u "Self-Hosted AI";
     post_preview := u "From LLM gateways to vector stores " ++ EM_DASH ++ u " what to run and where.";
     post_reading_time := u "8 min" |}
].

Definition list_products : list Product := [
  {| product_id := u "n8n-crm-sync";
     product_title := u "CRM Sync: Leads " ++ RIGHT_ARROW ++ u " Deals n8n workflow";
     product_description := u "Auto-creates deals from form leads with enrich + dedupe.";
     product_tag := u "CRM";
     product_level := u "Intermediate" |};
  {| product_id := u "ops-daily-digest";
     product_title := u "Ops Daily Digest";
     product_description := u "Slack summary of KPIs, incidents, and tasks across tools.";
     product_tag := u "Operations";
     product_level := u "Beginner" |};
  {| product_id := u "marketing-utm-cleaner";
     product_title := u "UTM Cleaner + Attribution";
     product_description := u "Normalize UTM params and attribute signups across sessions.";
     product_tag := u "Marketing";
     product_level := u "Advanced" |}
].

Definition list_resources : list Resource := [
  {| resource_id := u "wf-n8n-intro";
     resource_title := u "n8n Starter Pack";
     resource_kind := u "Workflow";
     resource_blurb := u "Five plug-and-play flows to kickstart automation.";
     resource_tags := [u "Workflow"; u "n8n"; u "Starter"] |};
  {| resource_id := u "inf-voice-design";
     resource_title := u "Voice UX Principles";
     resource_kind := u "Infographic";
     resource_blurb := u "Design patterns for voice-first productivity.";
     resource_tags := [u "Infographic"; u "Voice"; u "UX"] |};
  {| resource_id := u "tpl-checklist";
     resource_title := u "Automation Readiness Checklist";
     resource_kind := u "Template";
     resource_blurb := u "Assess your stack before you automate.";
     resource_tags := [u "Template"; u "Readiness"] |}
].

(** Serialisation through the response models [List[Post]] and the like. *)
Definition post_json (p : Post) : json :=
  JObj [(u "id", JStr (post_id p)); (u "title", JStr (post_title p));
        (u "category", JStr (post_category p)); (u "preview", JStr (post_preview p));
        (u "reading_time", JStr (post_reading_time p))].

Definition product_json (p : Product) : json :=
  JObj [(u "id", JStr (product_id p)); (u "title", JStr (product_title p));
        (u "description", JStr (product_description p)); (u "tag", JStr (product_tag p));
        (u "level", JStr (product_level p))].

Definition resource_json (r : Resource) : json :=
  JObj [(u "id", JStr (resource_id r)); (u "title", JStr (resource_title r));
        (u "kind", JStr (resource_kind r)); (u "blurb", JStr (resource_blurb r));
        (u "tags", JArr (map JStr (resource_tags r)))].

(* ------------------------------------------------------------------ *)
(** ** Storage: the [create_document] helper *)

(** A call [create_document(collection_name, data)], as recorded in the
    trace of the process. *)
Definition call : Type := (pystr * json)%type.

(** Which [create_document] the module bound at start-up: the stub of the
    [except] branch (lines 12-13), or the one of the external [database]
    module, which returns the inserted id (already passed through [str])
    or raises, possibly depending on the earlier calls. *)
Inductive adapter : Type :=
| Fallback
| Database (create : pystr -> json -> list call -> outcome pystr).

Definition create_document (a : adapter) (collection_name : pystr) (data : json)
  : ST (list call) pystr :=
  fun log =>
    (match a with
     | Fallback => Ok (u "mock-id")
     | Database create => create collection_name data log
     end, log ++ [(collection_name, data)]).

(* ------------------------------------------------------------------ *)
(** ** HTTP responses *)

(** The body of a 422 response (pydantic's error list) is not modelled. *)
Inductive response : Type :=
| HttpOk (body : json)
| HttpValidationError
| HttpError (status_code : Z) (detail : pystr).

(** FastAPI around an endpoint: an [HTTPException] becomes its status and
    [{"detail": ...}], any other exception a 500, and a returned value is
    validated and serialised by the [response_model] (a failure there is a
    500 as well). *)
Definition run_endpoint (h : ST (list call) json) (response_model : json -> option json)
  : ST (list call) response :=
  fun log =>
    match h log with
    | (Ok v, log') =>
        (Ok (match response_model v with
             | Some body => HttpOk body
             | None => HttpError 500 (u "Internal Server Error")
             end), log')
    | (Raise (HTTPException c d), log') => (Ok (HttpError c d), log')
    | (Raise (PyException _), log') => (Ok (HttpError 500 (u "Internal Server Error")), log')
    end.

(* ------------------------------------------------------------------ *)
(** ** Schemas and the business endpoints *)

Section Ingestion.

(** pydantic's [EmailStr] validator: [None] when the address is rejected,
    otherwise the normalised address it stores in the field. *)
Variable validate_email : pystr -> option pystr.

(** Field validators, applied to the value of a key of the JSON body
    ([None] when the key is absent). *)
Definition v_str (j : option json) : option pystr :=
  match j with Some (JStr s) => Some s | _ => None end.

(** [Field(..., min_length=lo, max_length=hi)] on a [str]. *)
Definition v_str_len (lo hi : nat) (j : option json) : option pystr :=
  match v_str j with
  | Some s => if (lo <=? length s)%nat && (length s <=? hi)%nat then Some s else None
  | None => None
  end.

Definition v_email (j : option json) : option pystr :=
  match j with Some (JStr s) => validate_email s | _ => None end.

(** [Optional[str] = None]: absent and [null] both give [None]. *)
Definition v_opt_str (j : option json) : option (option pystr) :=
  match j with
  | None | Some JNull => Some None
  | Some (JStr s) => Some (Some s)
  | Some _ => None
  end.

Fixpoint v_str_list (l : list json) : option (list pystr) :=
  match l with
  | [] => Some []
  | JStr s :: l' =>
      match v_str_list l' with Some ss => Some (s :: ss) | None => None end
  | _ :: _ => None
  end.

(** [Optional[List[str]] = Field(default_factory=list)]: absent gives [[]],
    an explicit [null] gives [None]. *)
Definition v_opt_str_list (j : option json) : option (option (list pystr)) :=
  match j with
  | None => Some (Some [])
  | Some JNull => Some None
  | Some (JArr l) => match v_str_list l with Some ss => Some (Some ss) | None => None end
  | Some _ => None
  end.

(** [List[str] = Field(default_factory=list)]. *)
Definition v_str_list_default (j : option json) : option (list pystr) :=
  match j with
  | None => Some []
  | Some (JArr l) => v_str_list l
  | Some _ => None
  end.

Record LeadCreate : Type := {
  lc_name : pystr;
  lc_email : pystr;
  lc_company : option pystr;
  lc_current_tools : option pystr;
  lc_message : option pystr }.

Record SubscribeCreate : Type := {
  sc_email : pystr;
  sc_interests : option (list pystr) }.

(** Request validation of [payload: LeadCreate]. *)
Definition parse_lead (body : json) : option LeadCreate :=
  match body with
  | JObj d =>
      match v_str_len 2 120 (dict_get (u "name") d), v_email (dict_get (u "email") d),
            v_opt_str (dict_get (u "company") d),
            v_opt_str (dict_get (u "current_tools") d),
            v_opt_str (dict_get (u "message") d) with
      | Some n, Some e, Some c, Some t, Some m =>
          Some {| lc_name := n; lc_email := e; lc_company := c;
                  lc_current_tools := t; lc_message := m |}
      | _, _, _, _, _ => None
      end
  | _ => None
  end.

(** Request validation of [payload: SubscribeCreate]. *)
Definition parse_subscribe (body : json) : option SubscribeCreate :=
  match body with
  | JObj d =>
      match v_email (dict_get (u "email") d), v_opt_str_list (dict_get (u "interests") d) with
      | Some e, Some i => Some {| sc_email := e; sc_interests := i |}
      | _, _ => None
      end
  | _ => None
  end.

(** [payload.model_dump()]. *)
Definition lead_model_dump (p : LeadCreate) : json :=
  JObj [(u "name", JStr (lc_name p)); (u "email", JStr (lc_email p));
        (u "company", opt_str (lc_company p));
        (u "current_tools", opt_str (lc_current_tools p));
        (u "message", opt_str (lc_message p))].

Definition subscribe_model_dump (p : SubscribeCreate) : json :=
  JObj [(u "email", JStr (sc_email p));
        (u "interests", match sc_interests p with
                        | None => JNull
                        | Some l => JArr (map JStr l)
                        end)].

(** [payload.interests or []]: [None] and [[]] are falsy. *)
Definition interests_or_empty (o : option (list pystr)) : list pystr :=
  match o with
  | Some ((_ :: _) as l) => l
  | _ => []
  end.

(** create_lead, lines 118-130. *)
Definition create_lead (a : adapter) (payload : LeadCreate) : ST (list call) json :=
  try_except
    (let doc := lead_model_dump payload in
     inserted_id <- create_document a (u "lead") doc ;;
     ret (JObj [(u "id", JStr inserted_id);
                (u "name", JStr (lc_name payload));
                (u "email", JStr (lc_email payload));
                (u "company", opt_str (lc_company payload))]))
    (fun e => raise (HTTPException 500 (u "Failed to save lead: " ++ exn_str e))).

(** subscribe, lines 133-144. *)
Definition subscribe (a : adapter) (payload : SubscribeCreate) : ST (list call) json :=
  try_except
    (let doc := subscribe_model_dump payload in
     inserted_id <- create_document a (u "subscriber") doc ;;
     ret (JObj [(u "id", JStr inserted_id);
                (u "email", JStr (sc_email payload));
                (u "interests", JArr (map JStr (interests_or_empty (sc_interests payload))))]))
    (fun e => raise (HTTPException 500 (u "Failed to subscribe: " ++ exn_str e))).

(** [response_model=LeadResponse]: the returned dict is validated again
    (the email through [EmailStr]) and serialised in the model's field
    order. *)
Definition lead_response_model (v : json) : option json :=
  match v with
  | JObj d =>
      match v_str (dict_get (u "id") d), v_str (dict_get (u "name") d),
            v_email (dict_get (u "email") d), v_opt_str (dict_get (u "company") d) with
      | Some i, Some n, Some e, Some c =>
          Some (JObj [(u "id", JStr i); (u "name", JStr n); (u "email", JStr e);
                      (u "company", opt_str c)])
      | _, _, _, _ => None
      end
  | _ => None
  end.

(** [response_model=SubscribeResponse]. *)
Definition subscribe_response_model (v : json) : option json :=
  match v with
  | JObj d =>
      match v_str (dict_get (u "id") d), v_email (dict_get (u "email") d),
            v_str_list_default (dict_get (u "interests") d) with
      | Some i, Some e, Some l =>
          Some (JObj [(u "id", JStr i); (u "email", JStr e);
                      (u "interests", JArr (map JStr l))])
      | _, _, _ => None
      end
  | _ => None
  end.

(** POST /leads: request validation (422 before the handler runs), then
    the handler. *)
Definition post_leads (a : adapter) (body : json) : ST (list call) response :=
  match parse_lead body with
  | None => ret HttpValidationError
  | Some p => run_endpoint (create_lead a p) lead_response_model
  end.

(** POST /subscribe. *)
Definition post_subscribe (a : adapter) (body : json) : ST (list call) response :=
  match parse_subscribe body with
  | None => ret HttpValidationError
  | Some p => run_endpoint (subscribe a p) subscribe_response_model
  end.

(** The routes of [app]. *)
Inductive request : Type :=
| GetRoot
| GetTest
| PostLeads (body : json)
| PostSubscribe (body : json)
| GetPosts
| GetProducts
| GetResources.

(** What the process runs against: the [create_document] bound at
    start-up, the [database] module as [test_database] imports it, and the
    process environment. *)
Record world : Type := {
  w_adapter : adapter;
  w_module : database_module;
  w_env : environ }.

Definition app (w : world) (rq : request) : ST (list call) response :=
  match rq with
  | GetRoot => ret (HttpOk (JObj [(u "message", JStr (u "FreeDAIY API is running"))]))
  | GetTest =>
      ret (match test_database (w_module w) (w_env w) with
           | Ok r => HttpOk (report_json r)
           | Raise _ => HttpError 500 (u "Internal Server Error")
           end)
  | PostLeads body => post_leads (w_adapter w) body
  | PostSubscribe body => post_subscribe (w_adapter w) body
  | GetPosts => ret (HttpOk (JArr (map post_json list_posts)))
  | GetProducts => ret (HttpOk (JArr (map product_json list_products)))
  | GetResources => ret (HttpOk (JArr (map resource_json list_resources)))
  end.

End Ingestion.

(* ------------------------------------------------------------------ *)
(** ** Reading the diagnostics report *)

(** The three status tiers of the diagnostics report: store absent,
    present but erroring, fully connected. *)
Inductive tier : Type := TierAbsent | TierErroring | TierConnected.

(** The tier a report shows, read off its [database], [connection_status]
    and [collections] entries; [None] for a report in none of them. *)
Definition tier_of (r : report) : option tier :=
  let not_connected := pystr_eqb (connection_status r) (u "Not Connected") in
  if pystr_eqb (connection_status r) (u "Connected")
     && pystr_eqb (database r) (CHECK_MARK ++ u " Connected & Working")
  then Some TierConnected
  else if not_connected && is_prefix CONNECTED_BUT_ERROR (database r)
  then Some TierErroring
  else if not_connected
          && (is_prefix IMPORT_ERROR (database r)
              || pystr_eqb (database r) (WARNING_SIGN ++ u " Available but not initialized"))
          && match collections r with [] => true | _ => false end
  then Some TierAbsent
  else None.

(** The state of the store behind [from database import db]. *)
Inductive store_condition : Type :=
| Unresolvable      (* the import raises *)
| Uninitialised     (* [db] is [None] *)
| ListingRaises     (* [db.list_collection_names()] raises *)
| Healthy.

Definition condition_of (m : database_module) : store_condition :=
  match m with
  | ImportFails _ => Unresolvable
  | Imported None => Uninitialised
  | Imported (Some db) =>
      match list_collection_names db with
      | Raise _ => ListingRaises
      | Ok _ => Healthy
      end
  end.

Definition expected_tier (c : store_condition) : tier :=
  match c with
  | Unresolvable | Uninitialised => TierAbsent
  | ListingRaises => TierErroring
  | Healthy => TierConnected
  end.

(** The presence flag written for an environment variable. *)
Definition env_flag (env : environ) (k : pystr) : pystr :=
  if getenv_truthy env k then SET_FLAG else NOT_SET_FLAG.

(** The value a JSON body carries for an optional key, [null] when absent. *)
Definition json_or_null (k : pystr) (d : pydict) : json :=
  match dict_get k d with None => JNull | Some j => j end.

(** Concrete inputs. *)
Definition no_env : environ := fun _ => None.

Definition lead_body_Al : json :=
  JObj [(u "name", JStr (u "Al")); (u "email", JStr (u "a@b.com"))].

(** An email validator for concrete runs: accepts addresses containing
    an [@] and leaves them unchanged. *)
Definition at_sign_validator (e : pystr) : option pystr :=
  if existsb (N.eqb 64) e then Some e else None.

Definition module_missing : database_module :=
  ImportFails (PyException (u "No module named 'database'")).

(** An environment that sets [DATABASE_URL] to [v] and nothing else. *)
Definition env_url (v : pystr) : environ :=
  fun k => if pystr_eqb k (u "DATABASE_URL") then Some v else None.

Definition lead_body_A : pydict :=
  [(u "name", JStr (u "A")); (u "email", JStr (u "a@b.com"))].

Definition subscribe_body_xy : json := JObj [(u "email", JStr (u "x@y.com"))].

Definition subscribe_body_null : pydict :=
  [(u "email", JStr (u "x@y.com")); (u "interests", JNull)].

Definition world_fallback : world :=
  {| w_adapter := Fallback; w_module := module_missing; w_env := no_env |}.

(** A [create_document] that always raises [msg]. *)
Definition raising_adapter (msg : pystr) : adapter :=
  Database (fun _ _ _ => Raise (PyException msg)).

(** ASCII upper case to lower case, other code points unchanged. *)
Definition ascii_lower (c : N) : N :=
  if (65 <=? c)%N && (c <=? 90)%N then (c + 32)%N else c.

(** Lower-cases the domain part (after the last [@]), walking the
    reversed address up to its [@]. *)
Fixpoint lower_after_last_at (rev_s : pystr) : pystr :=
  match rev_s with
  | [] => []
  | c :: r => if (c =? 64)%N then c :: r else ascii_lower c :: lower_after_last_at r
  end.

(** An email validator that normalises as pydantic's [EmailStr] does on
    ASCII addresses: the domain is lower-cased, the local part kept. *)
Definition domain_lowercasing_validator (e : pystr) : option pystr :=
  if existsb (N.eqb 64) e then Some (rev (lower_after_last_at (rev e))) else None.

Definition lead_body_upper : pydict :=
  [(u "name", JStr (u "Al")); (u "email", JStr (u "A@B.COM"))].

(* ================================================================== *)
(** * Properties *)

Lemma pystr_eqb_eq : forall a b, pystr_eqb a b = true <-> a = b.
Proof.
  induction a as [|x a IH]; destruct b as [|y b]; simpl; try (split; congruence).
  rewrite andb_true_iff, N.eqb_eq, IH. split.
  - intros [-> ->]; reflexivity.
  - intros H; inversion H; auto.
Qed.

Lemma pystr_eqb_refl : forall a, pystr_eqb a a = true.
Proof. intros a; apply pystr_eqb_eq; reflexivity. Qed.

Lemma is_prefix_app : forall p s, is_prefix p (p ++ s) = true.
Proof. induction p; simpl; auto. rewrite N.eqb_refl; auto. Qed.

(** The [database] entry after the [try] block, per store condition. *)
Lemma test_database_cases : forall m env,
  test_database m env =
  Ok (match m with
      | ImportFails e =>
          set_database_name (env_flag env (u "DATABASE_NAME"))
            (set_database_url (env_flag env (u "DATABASE_URL"))
              (set_database (IMPORT_ERROR ++ firstn 60 (exn_str e)) initial_report))
      | Imported None =>
          set_database_name (env_flag env (u "DATABASE_NAME"))
            (set_database_url (env_flag env (u "DATABASE_URL"))
              (set_database (WARNING_SIGN ++ u " Available but not initialized") initial_report))
      | Imported (Some db) =>
          match list_collection_names db with
          | Raise e =>
              set_database_name (env_flag env (u "DATABASE_NAME"))
                (set_database_url (env_flag env (u "DATABASE_URL"))
                  (set_database (CONNECTED_BUT_ERROR ++ firstn 60 (exn_str e))
                    (set_database (CHECK_MARK ++ u " Available") initial_report)))
          | Ok names =>
              set_database_name (env_flag env (u "DATABASE_NAME"))
                (set_database_url (env_flag env (u "DATABASE_URL"))
                  (set_connection_status (u "Connected")
                    (set_database (CHECK_MARK ++ u " Connected & Working")
                      (set_collections (firstn 10 names)
                        (set_database (CHECK_MARK ++ u " Available") initial_report)))))
          end
      end).
Proof.
  intros [e | [db|]] env;
    unfold test_database, test_database_body, env_flag, try_except, bind,
      import_db, ret, raise, modify, get;
    try destruct (list_collection_names db); reflexivity.
Qed.

(** C2: whatever the state of the store (import failing, [db] unset,
    listing raising, healthy), GET /test never lets an exception escape:
    it answers 200 with the report [test_database] built, and that report
    is in exactly one of the three tiers, the one matching the store:
    absent, connected but erroring, or fully connected. *)
Theorem get_test_never_raises_one_tier : forall validate_email w log,
  exists r,
    test_database (w_module w) (w_env w) = Ok r /\
    app validate_email w GetTest log = (Ok (HttpOk (report_json r)), log) /\
    tier_of r = Some (expected_tier (condition_of (w_module w))).
Proof.
  intros ve [a m env] log; unfold app; cbn [w_module w_env].
  rewrite test_database_cases.
  eexists; split; [reflexivity | split; [reflexivity |]].
  destruct m as [e | [db |]]; cbn [condition_of expected_tier].
  - unfold tier_of; cbn. reflexivity.
  - destruct (list_collection_names db) as [names | e]; unfold tier_of; cbn;
      reflexivity.
  - reflexivity.
Qed.

Lemma env_flag_set_iff : forall env k,
  env_flag env k = SET_FLAG <-> exists v, env k = Some v /\ v <> [].
Proof.
  intros env k; unfold env_flag, getenv_truthy.
  destruct (env k) as [[|c v]|]; cbn; split.
  - discriminate.
  - intros [v' [H1 H2]]; inversion H1; subst; congruence.
  - intros _; exists (c :: v); split; [reflexivity | discriminate].
  - reflexivity.
  - discriminate.
  - intros [v' [H1 _]]; discriminate.
Qed.

Lemma test_database_flags : forall m env,
  exists r, test_database m env = Ok r /\
    database_url r = Some (env_flag env (u "DATABASE_URL")) /\
    database_name r = Some (env_flag env (u "DATABASE_NAME")) /\
    (condition_of m <> Healthy -> connection_status r = u "Not Connected").
Proof.
  intros m env; rewrite test_database_cases; eexists; split; [reflexivity |].
  destruct m as [e | [db |]]; cbn [condition_of];
    try destruct (list_collection_names db); repeat split; cbn; try congruence.
Qed.

(** C8 (amended): each of the entries [database_url] and [database_name]
    of the GET /test report is "✅ Set" exactly when its variable is set to
    a non-empty string, and "❌ Not Set" when it is unset or empty; the value
    itself never appears.  With no environment and a store that is not
    healthy, GET /test answers 200 with both flags "❌ Not Set" and the
    connection status "Not Connected". *)
Theorem get_test_env_presence_flags : forall validate_email w log,
  exists r,
    app validate_email w GetTest log = (Ok (HttpOk (report_json r)), log) /\
    database_url r = Some (env_flag (w_env w) (u "DATABASE_URL")) /\
    database_name r = Some (env_flag (w_env w) (u "DATABASE_NAME")) /\
    (forall k, env_flag (w_env w) k = SET_FLAG <-> exists v, w_env w k = Some v /\ v <> []) /\
    (forall k, env_flag (w_env w) k = SET_FLAG \/ env_flag (w_env w) k = NOT_SET_FLAG) /\
    (w_env w = no_env -> condition_of (w_module w) <> Healthy ->
       database_url r = Some NOT_SET_FLAG /\ database_name r = Some NOT_SET_FLAG /\
       connection_status r = u "Not Connected").
Proof.
  intros ve [a m env] log; cbn [w_env w_module].
  destruct (test_database_flags m env) as [r [Hr [Hu [Hn Hs]]]].
  exists r; unfold app; cbn [w_module w_env]; rewrite Hr.
  split; [reflexivity |]. split; [exact Hu |]. split; [exact Hn |].
  split; [intros k; apply env_flag_set_iff |].
  split; [intros k; unfold env_flag; destruct (getenv_truthy env k); auto |].
  intros -> Hc. rewrite Hu, Hn. auto.
Qed.

(** C8, as stated, fails: a [DATABASE_URL] that is set to the empty string
    is reported "❌ Not Set" while a non-empty one is reported "✅ Set", so
    the flag depends on the value and not only on whether it is set. *)
Lemma database_url_flag_depends_on_value :
  env_url [] (u "DATABASE_URL") = Some [] /\
  env_url (u "mongodb://localhost:27017") (u "DATABASE_URL")
    = Some (u "mongodb://localhost:27017") /\
  exists r1 r2,
    test_database module_missing (env_url []) = Ok r1 /\
    test_database module_missing (env_url (u "mongodb://localhost:27017")) = Ok r2 /\
    database_url r1 = Some NOT_SET_FLAG /\ database_url r2 = Some SET_FLAG /\
    database_url r1 <> database_url r2.
Proof.
  split; [reflexivity |]. split; [reflexivity |].
  do 2 eexists; split; [reflexivity |]. split; [reflexivity |].
  split; [reflexivity |]. split; [reflexivity |].
  cbn; discriminate.
Qed.

(* ------------------------------------------------------------------ *)
(** ** Request validation and the two submission handlers *)

Ltac destruct_matches_in H :=
  repeat match type of H with
         | context [match ?x with _ => _ end] => destruct x eqn:?
         end.

Lemma parse_lead_inv : forall ve d p,
  parse_lead ve (JObj d) = Some p ->
  v_str_len 2 120 (dict_get (u "name") d) = Some (lc_name p) /\
  v_email ve (dict_get (u "email") d) = Some (lc_email p) /\
  v_opt_str (dict_get (u "company") d) = Some (lc_company p) /\
  v_opt_str (dict_get (u "current_tools") d) = Some (lc_current_tools p) /\
  v_opt_str (dict_get (u "message") d) = Some (lc_message p).
Proof.
  intros ve d p H; unfold parse_lead in H; destruct_matches_in H;
    try discriminate; inversion H; subst; cbn; auto.
Qed.

Lemma parse_subscribe_inv : forall ve d p,
  parse_subscribe ve (JObj d) = Some p ->
  v_email ve (dict_get (u "email") d) = Some (sc_email p) /\
  v_opt_str_list (dict_get (u "interests") d) = Some (sc_interests p).
Proof.
  intros ve d p H; unfold parse_subscribe in H; destruct_matches_in H;
    try discriminate; inversion H; subst; cbn; auto.
Qed.

Lemma v_str_len_inv : forall lo hi j s,
  v_str_len lo hi j = Some s ->
  j = Some (JStr s) /\ (lo <= length s <= hi)%nat.
Proof.
  intros lo hi j s H; unfold v_str_len, v_str in H.
  destruct j as [[| s' | |]|]; try discriminate.
  destruct ((lo <=? length s')%nat && (length s' <=? hi)%nat) eqn:E; [|discriminate].
  inversion H; subst. apply andb_true_iff in E as [E1 E2].
  apply Nat.leb_le in E1, E2. auto.
Qed.

Lemma v_email_inv : forall ve j e,
  v_email ve j = Some e -> exists s, j = Some (JStr s) /\ ve s = Some e.
Proof.
  intros ve j e H; destruct j as [[| s | |]|]; try discriminate; eauto.
Qed.

Lemma v_opt_str_json : forall j o,
  v_opt_str j = Some o -> opt_str o = match j with None => JNull | Some j' => j' end.
Proof.
  intros [[| s | |]|] o H; cbn in H; try discriminate; inversion H; reflexivity.
Qed.

Lemma lead_response_model_echo : forall ve i n e c,
  lead_response_model ve
    (JObj [(u "id", JStr i); (u "name", JStr n); (u "email", JStr e);
           (u "company", opt_str c)]) =
  match ve e with
  | Some e' => Some (JObj [(u "id", JStr i); (u "name", JStr n); (u "email", JStr e');
                           (u "company", opt_str c)])
  | None => None
  end.
Proof.
  intros ve i n e c; unfold lead_response_model; cbn.
  destruct (ve e); destruct c; reflexivity.
Qed.

Lemma v_str_list_map : forall l, v_str_list (map JStr l) = Some l.
Proof. induction l as [|s l IH]; cbn; [reflexivity | rewrite IH; reflexivity]. Qed.

Lemma subscribe_response_model_echo : forall ve i e l,
  subscribe_response_model ve
    (JObj [(u "id", JStr i); (u "email", JStr e); (u "interests", JArr (map JStr l))]) =
  match ve e with
  | Some e' => Some (JObj [(u "id", JStr i); (u "email", JStr e');
                           (u "interests", JArr (map JStr l))])
  | None => None
  end.
Proof.
  intros ve i e l; unfold subscribe_response_model; cbn.
  rewrite v_str_list_map. destruct (ve e); reflexivity.
Qed.

(** One accepted POST /leads: one call of [create_document("lead", doc)],
    then the receipt, or the 500 built from the exception. *)
Lemma post_leads_accepted : forall ve a body p log,
  parse_lead ve body = Some p ->
  post_leads ve a body log =
  (Ok (match match a with
             | Fallback => Ok (u "mock-id")
             | Database create => create (u "lead") (lead_model_dump p) log
             end with
       | Ok i =>
           match ve (lc_email p) with
           | Some e' => HttpOk (JObj [(u "id", JStr i); (u "name", JStr (lc_name p));
                                      (u "email", JStr e');
                                      (u "company", opt_str (lc_company p))])
           | None => HttpError 500 (u "Internal Server Error")
           end
       | Raise e => HttpError 500 (u "Failed to save lead: " ++ exn_str e)
       end),
   log ++ [(u "lead", lead_model_dump p)]).
Proof.
  intros ve a body p log H; unfold post_leads; rewrite H.
  unfold run_endpoint, create_lead, try_except, bind, create_document, ret, raise.
  destruct a as [| create]; [| destruct (create (u "lead") (lead_model_dump p) log)];
    try rewrite lead_response_model_echo; try (destruct (ve (lc_email p)));
    reflexivity.
Qed.

Lemma post_subscribe_accepted : forall ve a body p log,
  parse_subscribe ve body = Some p ->
  post_subscribe ve a body log =
  (Ok (match match a with
             | Fallback => Ok (u "mock-id")
             | Database create => create (u "subscriber") (subscribe_model_dump p) log
             end with
       | Ok i =>
           match ve (sc_email p) with
           | Some e' => HttpOk (JObj [(u "id", JStr i); (u "email", JStr e');
                                      (u "interests",
                                       JArr (map JStr (interests_or_empty (sc_interests p))))])
           | None => HttpError 500 (u "Internal Server Error")
           end
       | Raise e => HttpError 500 (u "Failed to subscribe: " ++ exn_str e)
       end),
   log ++ [(u "subscriber", subscribe_model_dump p)]).
Proof.
  intros ve a body p log H; unfold post_subscribe; rewrite H.
  unfold run_endpoint, subscribe, try_except, bind, create_document, ret, raise.
  destruct a as [| create]; [| destruct (create (u "subscriber") (subscribe_model_dump p) log)];
    try rewrite subscribe_response_model_echo; try (destruct (ve (sc_email p)));
    reflexivity.
Qed.

(** C3: a lead whose name is not a string of 2 to 120 characters, or
    whose email the [EmailStr] validator rejects, gets the 422 answer and
    [create_document] is not called (the trace of calls is unchanged).
    More generally, every POST /leads either calls nothing or records one
    call with the dump of a payload that passed all field validators: no
    partial record is ever handed to the store. *)
Theorem lead_invalid_rejected_before_persistence : forall validate_email w d log,
  ((forall name, dict_get (u "name") d = Some (JStr name) ->
                 (length name < 2 \/ 120 < length name)%nat) \/
   (forall e, dict_get (u "email") d = Some (JStr e) -> validate_email e = None)) ->
  app validate_email w (PostLeads (JObj d)) log = (Ok HttpValidationError, log) /\
  (forall body log',
     snd (app validate_email w (PostLeads body) log') = log' \/
     exists p, parse_lead validate_email body = Some p /\
               snd (app validate_email w (PostLeads body) log')
                 = log' ++ [(u "lead", lead_model_dump p)]).
Proof.
  intros ve w d log Hbad; split.
  - unfold app, post_leads.
    destruct (parse_lead ve (JObj d)) as [p |] eqn:E; [exfalso | reflexivity].
    destruct (parse_lead_inv ve d p E) as [Hn [He _]].
    apply v_str_len_inv in Hn as [Hn Hlen].
    apply v_email_inv in He as [s [Hs Hv]].
    destruct Hbad as [Hb | Hb].
    + specialize (Hb _ Hn); lia.
    + rewrite (Hb _ Hs) in Hv; discriminate.
  - intros body log'; unfold app.
    destruct (parse_lead ve body) as [p |] eqn:E.
    + right; exists p; split; [reflexivity |].
      rewrite (post_leads_accepted ve (w_adapter w) body p log' E); reflexivity.
    + left; unfold post_leads; rewrite E; reflexivity.
Qed.

(** C4 (amended): with the fallback [create_document], a lead that passes
    validation is answered 200 with the constant, non-empty id "mock-id"
    and the payload's name, email and company; name and company are the
    submitted ones (company [null] when absent), the email is the submitted
    address as the [EmailStr] validator returned it.  The validator is
    assumed to accept its own output unchanged, as the response model
    validates the email a second time. *)
Theorem fallback_lead_echo : forall validate_email d log p,
  (forall e e', validate_email e = Some e' -> validate_email e' = Some e') ->
  parse_lead validate_email (JObj d) = Some p ->
  post_leads validate_email Fallback (JObj d) log =
    (Ok (HttpOk (JObj [(u "id", JStr (u "mock-id")); (u "name", JStr (lc_name p));
                       (u "email", JStr (lc_email p));
                       (u "company", opt_str (lc_company p))])),
     log ++ [(u "lead", lead_model_dump p)]) /\
  u "mock-id" <> [] /\
  dict_get (u "name") d = Some (JStr (lc_name p)) /\
  opt_str (lc_company p) = json_or_null (u "company") d /\
  (exists e, dict_get (u "email") d = Some (JStr e) /\ validate_email e = Some (lc_email p)).
Proof.
  intros ve d log p Hidem H.
  destruct (parse_lead_inv ve d p H) as [Hn [He [Hc _]]].
  apply v_str_len_inv in Hn as [Hn _].
  apply v_email_inv in He as [s [Hs Hv]].
  split; [| split; [discriminate | split; [exact Hn | split]]].
  - rewrite (post_leads_accepted ve Fallback (JObj d) p log H).
    rewrite (Hidem _ _ Hv); reflexivity.
  - apply v_opt_str_json in Hc; exact Hc.
  - exists s; auto.
Qed.

(** C5: POST /leads with [{"name":"Al","email":"a@b.com"}] against the
    fallback [create_document] answers 200 with
    [{"id":"mock-id","name":"Al","email":"a@b.com","company":null}],
    for an email validator that accepts "a@b.com" as it is. *)
Theorem post_leads_Al_fallback : forall validate_email w log,
  validate_email (u "a@b.com") = Some (u "a@b.com") ->
  w_adapter w = Fallback ->
  fst (app validate_email w (PostLeads lead_body_Al) log) =
    Ok (HttpOk (JObj [(u "id", JStr (u "mock-id")); (u "name", JStr (u "Al"));
                      (u "email", JStr (u "a@b.com")); (u "company", JNull)])).
Proof.
  intros ve w log Hv Hw.
  assert (Hp : parse_lead ve lead_body_Al =
               Some {| lc_name := u "Al"; lc_email := u "a@b.com"; lc_company := None;
                       lc_current_tools := None; lc_message := None |}).
  { unfold parse_lead, lead_body_Al; cbn in Hv |- *. rewrite Hv. reflexivity. }
  unfold app; rewrite Hw, (post_leads_accepted ve Fallback lead_body_Al _ log Hp).
  cbn in Hv |- *. rewrite Hv. reflexivity.
Qed.

(** C6: when the body of POST /subscribe has no [interests] key, every
    200 answer carries [interests] as the empty array (present, not
    [null]), next to the id and the email. *)
Theorem subscribe_absent_interests_empty : forall validate_email a d log body,
  dict_get (u "interests") d = None ->
  fst (post_subscribe validate_email a (JObj d) log) = Ok (HttpOk body) ->
  exists i e, body = JObj [(u "id", JStr i); (u "email", JStr e); (u "interests", JArr [])].
Proof.
  intros ve a d log body Hi Hok.
  destruct (parse_subscribe ve (JObj d)) as [p |] eqn:E.
  - destruct (parse_subscribe_inv ve d p E) as [_ Hint].
    rewrite Hi in Hint; cbn in Hint; injection Hint as Hint.
    rewrite (post_subscribe_accepted ve a (JObj d) p log E) in Hok; cbn [fst] in Hok.
    rewrite <- Hint in Hok.
    destruct a as [| create]; [| destruct (create (u "subscriber") (subscribe_model_dump p) log)];
      destruct (ve (sc_email p)); cbn in Hok; inversion Hok; subst; eauto.
  - unfold post_subscribe in Hok; rewrite E in Hok; discriminate.
Qed.

(** C7: GET /posts, GET /products and GET /resources answer 200 with
    their fixed three-element arrays, whatever the world (store, module,
    environment) and the trace, and call nothing. *)
Theorem catalog_constant : forall validate_email w log,
  app validate_email w GetPosts log = (Ok (HttpOk (JArr (map post_json list_posts))), log) /\
  app validate_email w GetProducts log
    = (Ok (HttpOk (JArr (map product_json list_products))), log) /\
  app validate_email w GetResources log
    = (Ok (HttpOk (JArr (map resource_json list_resources))), log) /\
  length list_posts = 3%nat /\ length list_products = 3%nat /\ length list_resources = 3%nat.
Proof. intros; repeat split. Qed.

(** C9: when the body of POST /subscribe carries [interests: null], the
    document handed to [create_document] has [interests] [null], while
    every 200 answer has [interests] as the empty array; with the fallback
    [create_document] (and an email validator that accepts its own output)
    the answer is 200. *)
Theorem subscribe_null_interests : forall validate_email a d log p,
  dict_get (u "interests") d = Some JNull ->
  parse_subscribe validate_email (JObj d) = Some p ->
  snd (post_subscribe validate_email a (JObj d) log)
    = log ++ [(u "subscriber", JObj [(u "email", JStr (sc_email p)); (u "interests", JNull)])] /\
  (forall body, fst (post_subscribe validate_email a (JObj d) log) = Ok (HttpOk body) ->
     exists i e, body = JObj [(u "id", JStr i); (u "email", JStr e); (u "interests", JArr [])]) /\
  (a = Fallback ->
   (forall e e', validate_email e = Some e' -> validate_email e' = Some e') ->
   fst (post_subscribe validate_email a (JObj d) log)
     = Ok (HttpOk (JObj [(u "id", JStr (u "mock-id")); (u "email", JStr (sc_email p));
                         (u "interests", JArr [])]))).
Proof.
  intros ve a d log p Hi E.
  destruct (parse_subscribe_inv ve d p E) as [He Hint].
  rewrite Hi in Hint; cbn in Hint; injection Hint as Hint.
  apply v_email_inv in He as [s [Hs Hv]].
  rewrite (post_subscribe_accepted ve a (JObj d) p log E).
  unfold subscribe_model_dump; rewrite <- Hint; cbn [fst snd interests_or_empty map].
  split; [reflexivity | split].
  - intros body Hok.
    destruct a as [| create]; [| destruct (create (u "subscriber") _ log)];
      destruct (ve (sc_email p)); cbn in Hok; inversion Hok; subst; eauto.
  - intros -> Hidem. rewrite (Hidem _ _ Hv). reflexivity.
Qed.

(** C10 (amended): for an accepted POST /leads, the one document handed to
    [create_document("lead", ...)] has exactly the keys name, email,
    company, current_tools and message, with the submitted name, the
    validated email and the submitted optional values ([null] when
    absent); every 200 receipt has exactly the keys id, name, email and
    company, without current_tools and message. *)
Theorem lead_document_and_receipt : forall validate_email a d log p,
  parse_lead validate_email (JObj d) = Some p ->
  snd (post_leads validate_email a (JObj d) log) =
    log ++ [(u "lead", JObj [(u "name", JStr (lc_name p)); (u "email", JStr (lc_email p));
                             (u "company", json_or_null (u "company") d);
                             (u "current_tools", json_or_null (u "current_tools") d);
                             (u "message", json_or_null (u "message") d)])] /\
  dict_get (u "name") d = Some (JStr (lc_name p)) /\
  (exists e, dict_get (u "email") d = Some (JStr e) /\ validate_email e = Some (lc_email p)) /\
  (forall body, fst (post_leads validate_email a (JObj d) log) = Ok (HttpOk body) ->
     exists i e, body = JObj [(u "id", JStr i); (u "name", JStr (lc_name p));
                              (u "email", JStr e);
                              (u "company", json_or_null (u "company") d)]).
Proof.
  intros ve a d log p E.
  destruct (parse_lead_inv ve d p E) as [Hn [He [Hc [Ht Hm]]]].
  apply v_str_len_inv in Hn as [Hn _].
  apply v_email_inv in He as [s [Hs Hv]].
  apply v_opt_str_json in Hc, Ht, Hm.
  rewrite (post_leads_accepted ve a (JObj d) p log E); cbn [fst snd].
  unfold lead_model_dump, json_or_null; rewrite Hc, Ht, Hm.
  split; [reflexivity | split; [exact Hn | split; [eauto |]]].
  intros body Hok.
  destruct a as [| create]; [| destruct (create (u "lead") _ log)];
    destruct (ve (lc_email p)); inversion Hok; subst; eauto.
Qed.

(** C1 (the answer to a failed write): when [create_document] raises,
    POST /leads and POST /subscribe answer 500 with a detail that carries
    the whole exception message, untruncated: its length is the prefix's
    plus the message's, so it grows without bound with the message. *)
Theorem persistence_failure_detail_untruncated : forall validate_email dl ds p q msg log,
  parse_lead validate_email (JObj dl) = Some p ->
  parse_subscribe validate_email (JObj ds) = Some q ->
  fst (post_leads validate_email (raising_adapter msg) (JObj dl) log)
    = Ok (HttpError 500 (u "Failed to save lead: " ++ msg)) /\
  fst (post_subscribe validate_email (raising_adapter msg) (JObj ds) log)
    = Ok (HttpError 500 (u "Failed to subscribe: " ++ msg)) /\
  length (u "Failed to save lead: " ++ msg) = (21 + length msg)%nat /\
  length (u "Failed to subscribe: " ++ msg) = (21 + length msg)%nat.
Proof.
  intros ve dl ds p q msg log Hl Hs.
  rewrite (post_leads_accepted ve _ (JObj dl) p log Hl).
  rewrite (post_subscribe_accepted ve _ (JObj ds) q log Hs).
  repeat split; rewrite length_app; reflexivity.
Qed.

(* ------------------------------------------------------------------ *)
(** ** Witnesses: the properties at concrete inputs *)

Lemma persistence_failure_detail_untruncated_witness :
  fst (post_leads at_sign_validator (raising_adapter (repeat 120%N 1000)) lead_body_Al [])
    = Ok (HttpError 500 (u "Failed to save lead: " ++ repeat 120%N 1000)) /\
  length (u "Failed to save lead: " ++ repeat 120%N 1000) = 1021%nat.
Proof.
  destruct (persistence_failure_detail_untruncated at_sign_validator
              [(u "name", JStr (u "Al")); (u "email", JStr (u "a@b.com"))]
              [(u "email", JStr (u "x@y.com"))]
              {| lc_name := u "Al"; lc_email := u "a@b.com"; lc_company := None;
                 lc_current_tools := None; lc_message := None |}
              {| sc_email := u "x@y.com"; sc_interests := Some [] |}
              (repeat 120%N 1000) [] eq_refl eq_refl) as [H1 [_ [H3 _]]].
  split; [exact H1 | rewrite H3; reflexivity].
Defined.

Lemma lead_invalid_rejected_before_persistence_witness :
  app at_sign_validator world_fallback (PostLeads (JObj lead_body_A)) []
    = (Ok HttpValidationError, []).
Proof.
  apply (lead_invalid_rejected_before_persistence at_sign_validator world_fallback
           lead_body_A []).
  left; intros name H; cbn in H; injection H as <-; cbn; lia.
Defined.

Lemma fallback_lead_echo_witness :
  post_leads at_sign_validator Fallback lead_body_Al []
    = (Ok (HttpOk (JObj [(u "id", JStr (u "mock-id")); (u "name", JStr (u "Al"));
                         (u "email", JStr (u "a@b.com")); (u "company", JNull)])),
       [(u "lead", JObj [(u "name", JStr (u "Al")); (u "email", JStr (u "a@b.com"));
                         (u "company", JNull); (u "current_tools", JNull);
                         (u "message", JNull)])]).
Proof.
  refine (proj1 (fallback_lead_echo at_sign_validator
                   [(u "name", JStr (u "Al")); (u "email", JStr (u "a@b.com"))] []
                   {| lc_name := u "Al"; lc_email := u "a@b.com"; lc_company := None;
                      lc_current_tools := None; lc_message := None |} _ _)).
  - intros e e' H; unfold at_sign_validator in *.
    destruct (existsb (N.eqb 64) e) eqn:E; [injection H as <-; rewrite E |]; congruence.
  - reflexivity.
Defined.

Lemma post_leads_Al_fallback_witness :
  fst (app at_sign_validator world_fallback (PostLeads lead_body_Al) [])
    = Ok (HttpOk (JObj [(u "id", JStr (u "mock-id")); (u "name", JStr (u "Al"));
                        (u "email", JStr (u "a@b.com")); (u "company", JNull)])).
Proof.
  apply post_leads_Al_fallback; reflexivity.
Defined.

Lemma subscribe_absent_interests_empty_witness :
  exists i e, JObj [(u "id", JStr (u "mock-id")); (u "email", JStr (u "x@y.com"));
                    (u "interests", JArr [])]
              = JObj [(u "id", JStr i); (u "email", JStr e); (u "interests", JArr [])].
Proof.
  apply (subscribe_absent_interests_empty at_sign_validator Fallback
           [(u "email", JStr (u "x@y.com"))] []); reflexivity.
Defined.

Lemma subscribe_null_interests_witness :
  fst (post_subscribe at_sign_validator Fallback (JObj subscribe_body_null) [])
    = Ok (HttpOk (JObj [(u "id", JStr (u "mock-id")); (u "email", JStr (u "x@y.com"));
                        (u "interests", JArr [])])).
Proof.
  refine (proj2 (proj2 (subscribe_null_interests at_sign_validator Fallback
                          subscribe_body_null []
                          {| sc_email := u "x@y.com"; sc_interests := None |}
                          eq_refl eq_refl)) eq_refl _).
  intros e e' H; unfold at_sign_validator in *.
  destruct (existsb (N.eqb 64) e) eqn:E; [injection H as <-; rewrite E |]; congruence.
Defined.

Lemma lead_document_and_receipt_witness :
  snd (post_leads at_sign_validator Fallback lead_body_Al [])
    = [(u "lead", JObj [(u "name", JStr (u "Al")); (u "email", JStr (u "a@b.com"));
                        (u "company", JNull); (u "current_tools", JNull);
                        (u "message", JNull)])].
Proof.
  exact (proj1 (lead_document_and_receipt at_sign_validator Fallback
                  [(u "name", JStr (u "Al")); (u "email", JStr (u "a@b.com"))] []
                  {| lc_name := u "Al"; lc_email := u "a@b.com"; lc_company := None;
                     lc_current_tools := None; lc_message := None |} eq_refl)).
Defined.

(* ================================================================== *)
(** * Further properties of the endpoints *)

Lemma firstn_shown : forall {A : Type} n (s : list A),
  firstn n s ++ skipn n s = s /\ length (firstn n s) = Nat.min n (length s).
Proof. intros A n s; split; [apply firstn_skipn | apply length_firstn]. Qed.

(** GET /test builds a bounded report: [backend] is always "✅ Running",
    the [database] entry has at most 84 characters whatever the exception
    text, and at most 10 collection names are listed. *)
Theorem test_database_report_bounded : forall m env,
  exists r, test_database m env = Ok r /\
    backend r = CHECK_MARK ++ u " Running" /\
    (length (database r) <= 84)%nat /\
    (length (collections r) <= 10)%nat.
Proof.
  intros m env; rewrite test_database_cases; eexists; split; [reflexivity |].
  destruct m as [e | [db |]]; [| destruct (list_collection_names db) as [names | e] |];
    cbn -[firstn]; repeat split; try reflexivity; rewrite ?length_app, ?length_firstn; cbn -[Nat.min]; lia.
Qed.

(** When the import or the listing raises, the [database] entry is the
    fixed prefix followed by the first [min 60 (len (str e))] characters of
    the exception text (the whole text when it is at most 60 long); no
    collection is listed and the status stays "Not Connected". *)
Theorem test_database_error_text_truncated : forall m env,
  exists r, test_database m env = Ok r /\
    match m with
    | ImportFails e =>
        exists shown, database r = IMPORT_ERROR ++ shown /\
          shown ++ skipn 60 (exn_str e) = exn_str e /\
          length shown = Nat.min 60 (length (exn_str e)) /\
          collections r = [] /\ connection_status r = u "Not Connected"
    | Imported (Some db) =>
        match list_collection_names db with
        | Raise e =>
            exists shown, database r = CONNECTED_BUT_ERROR ++ shown /\
              shown ++ skipn 60 (exn_str e) = exn_str e /\
              length shown = Nat.min 60 (length (exn_str e)) /\
              collections r = [] /\ connection_status r = u "Not Connected"
        | Ok _ => True
        end
    | Imported None => True
    end.
Proof.
  intros m env; rewrite test_database_cases; eexists; split; [reflexivity |].
  destruct m as [e | [db |]]; [| destruct (list_collection_names db) as [names | e] |];
    auto; exists (firstn 60 (exn_str e));
    destruct (firstn_shown 60 (exn_str e)); repeat split; auto.
Qed.

(** With a healthy store, GET /test reports "Connected" and lists the first
    [min 10 n] collection names in the order the store gave them; in every
    other state it lists none and reports "Not Connected". *)
Theorem test_database_collections : forall m env,
  exists r, test_database m env = Ok r /\
    match condition_of m, m with
    | Healthy, Imported (Some db) =>
        exists names, list_collection_names db = Ok names /\
          collections r ++ skipn 10 names = names /\
          length (collections r) = Nat.min 10 (length names) /\
          connection_status r = u "Connected"
    | _, _ => collections r = [] /\ connection_status r = u "Not Connected"
    end.
Proof.
  intros m env; rewrite test_database_cases; eexists; split; [reflexivity |].
  destruct m as [e | [db |]]; cbn [condition_of].
  - split; reflexivity.
  - destruct (list_collection_names db) as [names | e] eqn:E.
    + exists names; destruct (firstn_shown 10 names); auto.
    + split; reflexivity.
  - split; reflexivity.
Qed.

(** Every request makes at most one [create_document] call and only
    appends to the trace; GET routes make none. *)
Theorem app_at_most_one_write : forall validate_email w rq log,
  exists l, snd (app validate_email w rq log) = log ++ l /\
    (length l <= 1)%nat /\
    match rq with PostLeads _ | PostSubscribe _ => True | _ => l = [] end.
Proof.
  intros ve w rq log; destruct rq as [| | body | body | | |];
    try (exists []; rewrite app_nil_r; auto; fail); unfold app.
  - destruct (parse_lead ve body) as [p |] eqn:E.
    + rewrite (post_leads_accepted ve _ body p log E); eexists; split; [reflexivity | cbn; auto].
    + unfold post_leads; rewrite E; exists []; rewrite app_nil_r; cbn; auto.
  - destruct (parse_subscribe ve body) as [p |] eqn:E.
    + rewrite (post_subscribe_accepted ve _ body p log E); eexists; split; [reflexivity | cbn; auto].
    + unfold post_subscribe; rewrite E; exists []; rewrite app_nil_r; cbn; auto.
Qed.

Lemma v_str_len_iff : forall lo hi j,
  v_str_len lo hi j <> None <-> exists s, j = Some (JStr s) /\ (lo <= length s <= hi)%nat.
Proof.
  intros lo hi j; split.
  - intros H; destruct (v_str_len lo hi j) as [s |] eqn:E; [| congruence].
    apply v_str_len_inv in E; eauto.
  - intros [s [-> [H1 H2]]]; unfold v_str_len, v_str.
    apply Nat.leb_le in H1, H2; rewrite H1, H2; discriminate.
Qed.

Lemma v_email_iff : forall ve j,
  v_email ve j <> None <-> exists s e', j = Some (JStr s) /\ ve s = Some e'.
Proof.
  intros ve j; split.
  - intros H; destruct (v_email ve j) as [e' |] eqn:E; [| congruence].
    apply v_email_inv in E as [s [Hs Hv]]; eauto.
  - intros [s [e' [-> Hv]]]; cbn; rewrite Hv; discriminate.
Qed.

Lemma v_opt_str_iff : forall j,
  v_opt_str j <> None <-> j = None \/ j = Some JNull \/ exists s, j = Some (JStr s).
Proof.
  intros [[| s | l | kvs] |]; cbn; split; intros H; eauto; try discriminate;
    try congruence; destruct H as [H | [H | [s' H]]]; discriminate.
Qed.

Lemma v_str_list_all_str : forall l ss,
  v_str_list l = Some ss -> forall x, In x l -> exists s, x = JStr s.
Proof.
  induction l as [| y l IH]; intros ss H x Hin; [destruct Hin |].
  destruct y as [| s | l' | kvs]; cbn in H; try discriminate.
  destruct (v_str_list l) as [ss' |] eqn:E; [| discriminate].
  destruct Hin as [<- | Hin]; eauto.
Qed.

(** Request validation of a lead accepts exactly the bodies whose name is
    a string of 2 to 120 characters (both bounds included), whose email is
    a string the email validator accepts, and whose company, current_tools
    and message are each absent, [null] or a string; anything else is a
    422. *)
Theorem parse_lead_accepts_iff : forall validate_email d,
  parse_lead validate_email (JObj d) <> None <->
  (exists s, dict_get (u "name") d = Some (JStr s) /\ (2 <= length s <= 120)%nat) /\
  (exists s e', dict_get (u "email") d = Some (JStr s) /\ validate_email s = Some e') /\
  (dict_get (u "company") d = None \/ dict_get (u "company") d = Some JNull \/
     exists s, dict_get (u "company") d = Some (JStr s)) /\
  (dict_get (u "current_tools") d = None \/ dict_get (u "current_tools") d = Some JNull \/
     exists s, dict_get (u "current_tools") d = Some (JStr s)) /\
  (dict_get (u "message") d = None \/ dict_get (u "message") d = Some JNull \/
     exists s, dict_get (u "message") d = Some (JStr s)).
Proof.
  intros ve d.
  rewrite <- (v_str_len_iff 2 120), <- (v_email_iff ve), <- !v_opt_str_iff.
  unfold parse_lead.
  destruct (v_str_len 2 120 (dict_get (u "name") d)), (v_email ve (dict_get (u "email") d)),
    (v_opt_str (dict_get (u "company") d)), (v_opt_str (dict_get (u "current_tools") d)),
    (v_opt_str (dict_get (u "message") d));
    split; intros H; try (repeat split; discriminate);
    try (destruct H as (H1 & H2 & H3 & H4 & H5); congruence); congruence.
Qed.

(** POST /subscribe answers 422, without calling [create_document], when
    the email is not a string the validator accepts, or when [interests] is
    present but neither [null] nor an array of strings. *)
Theorem subscribe_invalid_rejected : forall validate_email w d log,
  ((forall e, dict_get (u "email") d = Some (JStr e) -> validate_email e = None) \/
   (exists j, dict_get (u "interests") d = Some j /\
      match j with
      | JNull => False
      | JArr l => exists x, In x l /\ forall s, x <> JStr s
      | _ => True
      end)) ->
  app validate_email w (PostSubscribe (JObj d)) log = (Ok HttpValidationError, log).
Proof.
  intros ve w d log Hbad; unfold app, post_subscribe.
  destruct (parse_subscribe ve (JObj d)) as [p |] eqn:E; [exfalso | reflexivity].
  destruct (parse_subscribe_inv ve d p E) as [He Hi].
  destruct Hbad as [Hb | [j [Hj Hb]]].
  - apply v_email_inv in He as [s [Hs Hv]]; rewrite (Hb _ Hs) in Hv; discriminate.
  - rewrite Hj in Hi; destruct j as [| s | l | kvs]; cbn in Hi; try discriminate; auto.
    destruct (v_str_list l) as [ss |] eqn:El; [| discriminate].
    destruct Hb as [x [Hin Hx]].
    destruct (v_str_list_all_str l ss El x Hin) as [s Hs]; exact (Hx s Hs).
Qed.

(** With the fallback [create_document], an accepted subscription is
    answered 200 with the id "mock-id", the validated email and the
    interests; interests submitted as an array of strings are echoed as
    they were sent (in order, empty included). *)
Theorem fallback_subscribe_echo : forall validate_email d log p,
  (forall e e', validate_email e = Some e' -> validate_email e' = Some e') ->
  parse_subscribe validate_email (JObj d) = Some p ->
  post_subscribe validate_email Fallback (JObj d) log =
    (Ok (HttpOk (JObj [(u "id", JStr (u "mock-id")); (u "email", JStr (sc_email p));
                       (u "interests",
                        JArr (map JStr (interests_or_empty (sc_interests p))))])),
     log ++ [(u "subscriber", subscribe_model_dump p)]) /\
  (forall l, dict_get (u "interests") d = Some (JArr (map JStr l)) ->
     interests_or_empty (sc_interests p) = l).
Proof.
  intros ve d log p Hidem E.
  destruct (parse_subscribe_inv ve d p E) as [He Hi].
  apply v_email_inv in He as [s [Hs Hv]].
  split.
  - rewrite (post_subscribe_accepted ve Fallback (JObj d) p log E).
    rewrite (Hidem _ _ Hv); reflexivity.
  - intros l Hl; rewrite Hl in Hi; cbn in Hi; rewrite v_str_list_map in Hi.
    injection Hi as Hi; rewrite <- Hi; destruct l; reflexivity.
Qed.


(* ------------------------------------------------------------------ *)
(** ** Witnesses of the further properties *)

Lemma at_sign_validator_idem : forall e e',
  at_sign_validator e = Some e' -> at_sign_validator e' = Some e'.
Proof.
  intros e e' H; unfold at_sign_validator in *.
  destruct (existsb (N.eqb 64) e) eqn:E; [injection H as <-; rewrite E |]; congruence.
Qed.

Lemma subscribe_invalid_rejected_witness :
  app at_sign_validator world_fallback
    (PostSubscribe (JObj [(u "email", JStr (u "x@y.com")); (u "interests", JStr (u "ai"))])) []
  = (Ok HttpValidationError, []).
Proof.
  apply subscribe_invalid_rejected; right.
  exists (JStr (u "ai")); split; [reflexivity | exact I].
Defined.

Lemma fallback_subscribe_echo_witness :
  post_subscribe at_sign_validator Fallback
    (JObj [(u "email", JStr (u "x@y.com"));
           (u "interests", JArr [JStr (u "ai"); JStr (u "n8n")])]) []
  = (Ok (HttpOk (JObj [(u "id", JStr (u "mock-id")); (u "email", JStr (u "x@y.com"));
                       (u "interests", JArr [JStr (u "ai"); JStr (u "n8n")])])),
     [(u "subscriber", JObj [(u "email", JStr (u "x@y.com"));
                             (u "interests", JArr [JStr (u "ai"); JStr (u "n8n")])])]).
Proof.
  exact (proj1 (fallback_subscribe_echo at_sign_validator
                  [(u "email", JStr (u "x@y.com"));
                   (u "interests", JArr [JStr (u "ai"); JStr (u "n8n")])] []
                  {| sc_email := u "x@y.com"; sc_interests := Some [u "ai"; u "n8n"] |}
                  at_sign_validator_idem eq_refl)).
Defined.


(* ------------------------------------------------------------------ *)
(** ** The email as submitted and as echoed *)

(** C4, as stated, fails: the echo is the address as the email validator
    normalised it.  With a validator that lower-cases the domain, as
    [EmailStr] does, POST /leads with the email "A@B.COM" against the
    fallback [create_document] answers 200 with the email "A@b.com", not
    the submitted one. *)
Lemma fallback_lead_echo_email_normalised :
  dict_get (u "email") lead_body_upper = Some (JStr (u "A@B.COM")) /\
  fst (post_leads domain_lowercasing_validator Fallback (JObj lead_body_upper) [])
    = Ok (HttpOk (JObj [(u "id", JStr (u "mock-id")); (u "name", JStr (u "Al"));
                        (u "email", JStr (u "A@b.com")); (u "company", JNull)])) /\
  u "A@b.com" <> u "A@B.COM".
Proof. split; [reflexivity | split; [vm_compute; reflexivity | discriminate]]. Qed.

(** C10, as stated, fails: the document handed to [create_document]
    carries the normalised email.  With the same validator, the lead with
    email "A@B.COM" is stored with the email "A@b.com". *)
Lemma lead_document_email_normalised :
  dict_get (u "email") lead_body_upper = Some (JStr (u "A@B.COM")) /\
  snd (post_leads domain_lowercasing_validator Fallback (JObj lead_body_upper) [])
    = [(u "lead", JObj [(u "name", JStr (u "Al")); (u "email", JStr (u "A@b.com"));
                        (u "company", JNull); (u "current_tools", JNull);
                        (u "message", JNull)])] /\
  u "A@b.com" <> u "A@B.COM".
Proof. split; [reflexivity | split; [vm_compute; reflexivity | discriminate]]. Qed.
